(** * img2panorama: the panorama assembly pipeline of [main.py]

    A shallow embedding of [scan_images], [create_panorama], [save_image]
    and [main], together with the properties of the pipeline that the
    specification states about them.

    The program is a thin driver around three external capabilities:
    the directory listing of [os], the codec and the stitcher of [cv2].
    None of them is implemented in the repository, so they are taken as a
    [World]: a record of functions over an abstract file system, each of
    which says what the call answers or that it raises.
    Every call the program makes to the outside, and every log record it
    emits, is appended to a journal, so that "is invoked exactly once" and
    "is never invoked" are statements about that journal. *)

From Stdlib Require Import ZArith Ascii String.
From stdpp Require Import base option list strings pretty gmap.

Local Open Scope string_scope.
Local Open Scope Z_scope.
Local Open Scope list_scope.

(** ** Strings, as the Python built-ins treat them *)

Module Str.

(** [c.lower()] on one character.  File names are modelled as byte
    strings; only the ASCII letters have an upper case. *)
Definition lower_char (c : ascii) : ascii :=
  let n := nat_of_ascii c in
  if (Nat.leb 65 n && Nat.leb n 90)%bool then ascii_of_nat (n + 32) else c.

(** [s.lower()] *)
Fixpoint lower (s : string) : string :=
  match s with
  | EmptyString => EmptyString
  | String c s' => String (lower_char c) (lower s')
  end.

(** [s.endswith(suffix)]: [suffix] is one of the tails of [s]. *)
Fixpoint endswith (s suffix : string) : bool :=
  if String.eqb s suffix then true
  else match s with
       | EmptyString => false
       | String _ s' => endswith s' suffix
       end.

(** [s.endswith(suffixes)] with a tuple argument: any of them. *)
Definition endswith_any (s : string) (suffixes : list string) : bool :=
  existsb (endswith s) suffixes.

(** [s.startswith(prefix)] *)
Definition startswith (s prefix : string) : bool := String.prefix prefix s.

(** [needle in s] *)
Fixpoint contains (s needle : string) : bool :=
  if String.prefix needle s then true
  else match s with
       | EmptyString => false
       | String _ s' => contains s' needle
       end.

End Str.

(** [os.path.join(a, b)] of [posixpath], for two components. *)
Definition os_path_join (a b : string) : string :=
  if Str.startswith b "/" then b
  else if (String.eqb a "" || Str.endswith a "/")%bool then a +:+ b
  else a +:+ "/" +:+ b.

(** ** Data model *)

(** [np.ndarray]: a decoded raster, its shape and its pixel buffer. *)
Record ndarray := Ndarray { shape : list nat; buffer : list Z }.

(** The levels of [logging] the program uses. *)
Inductive level := INFO | WARNING | ERROR.

(** What a run does to the outside, in the order it does it. *)
Inductive event :=
| Log (lvl : level) (msg : string)
| Listdir (directory : string)
| Imread (file_name : string)
| Stitch (images : list (option ndarray))
| Imwrite (file_name : string) (image : ndarray).

(** The exceptions that reach the program, none of which it catches:
    [OSError] from [os.listdir] on a directory that cannot be listed, and
    [cv2.error] from the [cv2] function named. *)
Inductive exn :=
| OSError (directory : string)
| Cv2Error (function : string).

Inductive outcome (A : Type) :=
| Returns (a : A)
| Raises (e : exn).
Arguments Returns {A} a.
Arguments Raises {A} e.

(** The external capabilities.  [listdir] gives [None] where [os.listdir]
    raises; [imread] gives [None] for a missing or undecodable file, as
    [cv2.imread] does; [imwrite] gives the file system the call leaves and
    the boolean [cv2.imwrite] returns, or [None] in its place where it
    raises (a file name with no writer, for one); [stitch] gives the pair
    [(status, panorama)] of [cv2.Stitcher.stitch] for the Python list it is
    handed, or [None] where it raises; [Stitcher_OK] is the constant
    [cv2.Stitcher_OK]. *)
Record World (FS : Type) := {
  listdir : FS -> string -> option (list string);
  imread : FS -> string -> option ndarray;
  imwrite : FS -> string -> ndarray -> FS * option bool;
  stitch : list (option ndarray) -> option (Z * option ndarray);
  Stitcher_OK : Z
}.
Arguments listdir {FS} w _ _.
Arguments imread {FS} w _ _.
Arguments imwrite {FS} w _ _ _.
Arguments stitch {FS} w _.
Arguments Stitcher_OK {FS} w.

(** The state a run threads: the file system and the journal. *)
Record machine (FS : Type) := Machine { disk : FS; journal : list event }.
Arguments Machine {FS} disk journal.
Arguments disk {FS} m.
Arguments journal {FS} m.

(** ** The monad of runs: state, and an exception that ends the run *)

Definition run (FS A : Type) : Type := machine FS -> outcome A * machine FS.

Section Monad.
Context {FS : Type}.

Definition run_ret {A} (a : A) : run FS A := fun m => (Returns a, m).

Definition run_bind {A B} (f : A -> run FS B) (c : run FS A) : run FS B :=
  fun m => match c m with
           | (Returns a, m') => f a m'
           | (Raises e, m') => (Raises e, m')
           end.

Definition emit (e : event) : run FS unit :=
  fun m => (Returns tt, Machine (disk m) (journal m ++ [e])).

Definition raise {A} (e : exn) : run FS A := fun m => (Raises e, m).

Definition read_disk : run FS FS := fun m => (Returns (disk m), m).

Definition write_disk (d : FS) : run FS unit :=
  fun m => (Returns tt, Machine d (journal m)).
End Monad.

#[global] Instance run_mret {FS} : MRet (run FS) := @run_ret FS.
#[global] Instance run_mbind {FS} : MBind (run FS) := @run_bind FS.

(** ** The program *)

Section Program.
Context {FS : Type} (w : World FS).

(** *** The calls to the outside *)

Definition logging_info (msg : string) : run FS unit := emit (Log INFO msg).
Definition logging_warning (msg : string) : run FS unit := emit (Log WARNING msg).
Definition logging_error (msg : string) : run FS unit := emit (Log ERROR msg).

Definition os_listdir (directory : string) : run FS (list string) :=
  emit (Listdir directory);;
  d ← read_disk;
  match listdir w d directory with
  | Some names => mret names
  | None => raise (OSError directory)
  end.

Definition cv2_imread (file_name : string) : run FS (option ndarray) :=
  emit (Imread file_name);;
  d ← read_disk;
  mret (imread w d file_name).

Definition cv2_imwrite (file_name : string) (image : ndarray) : run FS bool :=
  emit (Imwrite file_name image);;
  d ← read_disk;
  write_disk (imwrite w d file_name image).1;;
  match (imwrite w d file_name image).2 with
  | Some saved => mret saved
  | None => raise (Cv2Error "imwrite")
  end.

Definition stitcher_stitch (images : list (option ndarray))
  : run FS (Z * option ndarray) :=
  emit (Stitch images);;
  match stitch w images with
  | Some answer => mret answer
  | None => raise (Cv2Error "stitch")
  end.

(** *** [create_panorama] (main.py, lines 11-33)

    The list comprehension decodes every path before anything is tested;
    [any(img is None ...)] then rejects the whole list.  The object of
    [cv2.Stitcher_create()] has no state the program observes: its
    [stitch] method is the engine of the world. *)

Definition is_None (img : option ndarray) : bool :=
  match img with None => true | Some _ => false end.

Definition create_panorama (image_files : list string) : run FS (option ndarray) :=
  logging_info ("Stitching " +:+ pretty (length image_files)
                +:+ " images into a panorama.");;
  images ← mapM cv2_imread image_files;
  if existsb is_None images then
    logging_error "One or more images could not be loaded.";;
    mret None
  else
    '(status, panorama) ← stitcher_stitch images;
    if negb (status =? Stitcher_OK w) then
      logging_error ("Failed to stitch images, error code: " +:+ pretty status);;
      mret None
    else
      logging_info "Panorama successfully created.";;
      mret panorama.

(** *** [save_image] (main.py, lines 35-38)

    The boolean of [cv2.imwrite] is dropped; what it raises is not
    caught. *)

Definition save_image (image : ndarray) (file_name : string) : run FS unit :=
  cv2_imwrite file_name image;;
  logging_info ("Panorama saved as " +:+ file_name).

(** *** [scan_images] (main.py, lines 40-51) *)

Definition supported_extensions : list string := [".jpg"; ".jpeg"; ".png"].

Definition supported (f : string) : bool :=
  Str.endswith_any (Str.lower f) supported_extensions.

Definition scan_images (directory : string) : run FS (list string) :=
  names ← os_listdir directory;
  let image_files := os_path_join directory <$> filter (fun f => supported f = true) names in
  (match image_files with
   | [] => logging_warning "No image files found in the directory."
   | _ => mret tt
   end);;
  mret image_files.

(** *** [main] (main.py, lines 53-73), after [argparse] has produced
    [args.input_dir] *)

Definition main (input_dir : string) : run FS unit :=
  image_files ← scan_images input_dir;
  match image_files with
  | [] => logging_error "No images found to process. Exiting program."
  | _ =>
      panorama ← create_panorama image_files;
      match panorama with
      | Some p => save_image p "panorama_output.jpg"
      | None => logging_error "Failed to create a panorama."
      end
  end.

End Program.

(** The status the interpreter exits with when the script's last statement,
    [main()], has run: 0 after a normal return, 1 after an uncaught
    exception. *)
Definition exit_status {A} (o : outcome A) : Z :=
  match o with
  | Returns _ => 0
  | Raises _ => 1
  end.

(** A run of the script on a file system, from an empty journal. *)
Definition script {FS} (w : World FS) (input_dir : string) (d : FS)
  : outcome unit * machine FS :=
  main w input_dir (Machine d []).

(** ** Vocabulary of the properties *)

(** What discovery keeps of a listing: the path of every supported name. *)
Definition discovered (directory : string) (names : list string) : list string :=
  os_path_join directory <$> filter (fun f => supported f = true) names.

(** The two messages of [create_panorama] that are built by an f-string. *)
Definition stitching_message (n : nat) : string :=
  "Stitching " +:+ pretty n +:+ " images into a panorama.".

Definition stitch_error_message (status : Z) : string :=
  "Failed to stitch images, error code: " +:+ pretty status.

(** *** The extension test, in the specification's words

    "Ends in [.jpg], [.jpeg] or [.png], compared case-insensitively": the
    name splits into a stem and a tail, and the tail is one of the three
    extensions up to the case of its letters. *)

(** Two characters are the same letter up to case when they are equal, or
    one is the capital and the other the small form of one of the 26
    letters: [A] is 65 and [a] is 97. *)
Inductive same_letter : ascii -> ascii -> Prop :=
| same_letter_equal c : same_letter c c
| same_letter_capital_small i :
    (i < 26)%nat -> same_letter (ascii_of_nat (65 + i)) (ascii_of_nat (97 + i))
| same_letter_small_capital i :
    (i < 26)%nat -> same_letter (ascii_of_nat (97 + i)) (ascii_of_nat (65 + i)).

Inductive same_ignoring_case : string -> string -> Prop :=
| same_empty : same_ignoring_case "" ""
| same_char a b s t :
    same_letter a b ->
    same_ignoring_case s t ->
    same_ignoring_case (String a s) (String b t).

Definition has_image_extension (name : string) : Prop :=
  exists ext stem tail,
    In ext [".jpg"; ".jpeg"; ".png"] /\
    name = stem +:+ tail /\
    same_ignoring_case tail ext.

(** "Exactly the entries that satisfy [P]; the others are ignored":
    [kept] is [names] with the entries outside [P] left out, nothing
    reordered, nothing repeated, nothing added. *)
Inductive selects (P : string -> Prop) : list string -> list string -> Prop :=
| selects_done : selects P [] []
| selects_keep f names kept :
    P f -> selects P names kept -> selects P (f :: names) (f :: kept)
| selects_skip f names kept :
    ~ P f -> selects P names kept -> selects P (f :: names) kept.

(** *** Reading a journal *)

Definition stitch_calls (j : list event) : list (list (option ndarray)) :=
  omap (fun e => match e with Stitch images => Some images | _ => None end) j.

Definition imread_calls (j : list event) : list string :=
  omap (fun e => match e with Imread f => Some f | _ => None end) j.

Definition imwrite_calls (j : list event) : list (string * ndarray) :=
  omap (fun e => match e with Imwrite f image => Some (f, image) | _ => None end) j.

Definition log_records (j : list event) : list (level * string) :=
  omap (fun e => match e with Log lvl msg => Some (lvl, msg) | _ => None end) j.

(** What a call reports: the value it gives its caller and the records it
    logs. *)
Definition reported {FS A} (r : outcome A * machine FS)
  : outcome A * list (level * string) :=
  (r.1, log_records (journal r.2)).

(** *** The situations the properties speak of *)

Section Situations.
Context {FS : Type} (w : World FS).

(** Every path of the list decodes on this file system. *)
Definition all_decodable (d : FS) (image_files : list string) : Prop :=
  Forall (fun f => is_Some (imread w d f)) image_files.

(** At least one path of the list fails to decode. *)
Definition some_undecodable (d : FS) (image_files : list string) : Prop :=
  Exists (fun f => imread w d f = None) image_files.

(** What the engine answers for the images these paths decode to, [None]
    where it raises. *)
Definition engine_answer (d : FS) (image_files : list string)
  : option (Z * option ndarray) :=
  stitch w (imread w d <$> image_files).

(** The engine returns, and the status it reports is [status]. *)
Definition engine_reports (d : FS) (image_files : list string) (status : Z) : Prop :=
  exists panorama, engine_answer d image_files = Some (status, panorama).

(** The engine reports a status other than [cv2.Stitcher_OK]. *)
Definition engine_fails (d : FS) (image_files : list string) : Prop :=
  exists status,
    engine_reports d image_files status /\ status <> Stitcher_OK w.

(** The two failure causes of [create_panorama]. *)
Definition load_or_stitch_failure (d : FS) (image_files : list string) : Prop :=
  some_undecodable d image_files \/
  (all_decodable d image_files /\ engine_fails d image_files).


End Situations.

(** ** A concrete world

    A file system that stores rasters as they are, a directory [photos]
    with a given listing, an engine with a fixed answer ([None]: it
    raises), and a destination that can or cannot be written; a file name
    without one of the three image extensions has no writer.
    [cv2.Stitcher_OK] is 0; 1, 2 and 3 are the failure codes of
    [cv2.Stitcher]. *)

Module Demo.

Definition raster (v : Z) : ndarray := Ndarray [1%nat; 1%nat; 3%nat] [v; v; v].

Definition world (names : list string) (answer : option (Z * option ndarray))
    (writable : bool) : World (gmap string ndarray) :=
  {| listdir := fun _ directory =>
       if String.eqb directory "photos" then Some names else None;
     imread := fun d f => d !! f;
     imwrite := fun d f image =>
       if negb (supported f) then (d, None)
       else if writable then (<[f := image]> d, Some true)
       else (d, Some false);
     stitch := fun _ => answer;
     Stitcher_OK := 0 |}.

Definition photos : gmap string ndarray :=
  {[ "photos/a.jpg" := raster 1; "photos/b.PNG" := raster 2 ]}.

Definition listing : list string := ["a.jpg"; "b.PNG"; "c.txt"].

Definition panorama : ndarray := raster 9.

(** The paths discovery gives for [listing], both on [photos]. *)
Definition paths : list string := ["photos/a.jpg"; "photos/b.PNG"].

(** The same with a path that is not on [photos]. *)
Definition broken_paths : list string := ["photos/a.jpg"; "photos/missing.png"].

(** The engine succeeds. *)
Definition ok_world : World (gmap string ndarray) :=
  world listing (Some (0, Some panorama)) true.

(** The engine reports [ERR_NEED_MORE_IMGS]. *)
Definition need_more_world : World (gmap string ndarray) :=
  world listing (Some (1, None)) true.

(** The engine reports [ERR_HOMOGRAPHY_EST_FAIL]. *)
Definition homography_world : World (gmap string ndarray) :=
  world listing (Some (2, None)) true.

(** The engine raises. *)
Definition raising_world : World (gmap string ndarray) :=
  world listing None true.

(** The engine succeeds and the destination cannot be written. *)
Definition read_only_world : World (gmap string ndarray) :=
  world listing (Some (0, Some panorama)) false.

(** A directory without images. *)
Definition notes_world : World (gmap string ndarray) :=
  world ["notes.txt"] (Some (0, Some panorama)) true.

Definition start : machine (gmap string ndarray) := Machine photos [].

End Demo.

(** * Properties *)

(** ** Strings *)

Module StrFacts.
Import Str.

Lemma endswith_unfold s suffix :
  endswith s suffix =
  if String.eqb s suffix then true
  else match s with
       | EmptyString => false
       | String _ s' => endswith s' suffix
       end.
Proof. destruct s; reflexivity. Qed.

Lemma endswith_refl s : endswith s s = true.
Proof.
  rewrite endswith_unfold.
  destruct (String.eqb_spec s s); [reflexivity | congruence].
Qed.

Lemma endswith_intro stem suffix : endswith (stem +:+ suffix) suffix = true.
Proof.
  induction stem as [|c stem IH].
  - apply endswith_refl.
  - rewrite endswith_unfold.
    change (String c stem +:+ suffix) with (String c (stem +:+ suffix)).
    destruct (String.eqb _ _); [reflexivity | exact IH].
Qed.

Lemma endswith_elim s suffix :
  endswith s suffix = true -> exists stem, s = stem +:+ suffix.
Proof.
  induction s as [|c s IH]; rewrite endswith_unfold.
  - destruct (String.eqb_spec "" suffix) as [<-|]; [|discriminate].
    intros _. exists "". reflexivity.
  - destruct (String.eqb_spec (String c s) suffix) as [<-|_].
    + intros _. exists "". reflexivity.
    + intros H. destruct (IH H) as [stem ->]. exists (String c stem). reflexivity.
Qed.

Lemma lower_app s t : lower (s +:+ t) = lower s +:+ lower t.
Proof. induction s as [|c s IH]; simpl; [reflexivity | rewrite IH; reflexivity]. Qed.

(** Splitting a lowered string splits the string it came from. *)
Lemma lower_split s a b :
  lower s = a +:+ b ->
  exists s1 s2, s = s1 +:+ s2 /\ lower s1 = a /\ lower s2 = b.
Proof.
  revert a. induction s as [|c s IH]; intros a H.
  - destruct a, b; try discriminate. exists "", "". auto.
  - destruct a as [|ca a]; simpl in H.
    + exists "", (String c s). simpl. auto.
    + injection H as Hc H. destruct (IH _ H) as (s1 & s2 & -> & <- & <-).
      exists (String c s1), s2. simpl. rewrite Hc. auto.
Qed.

End StrFacts.

(** The code folds case with [lower_char]; on single characters that is
    the comparison up to case of the specification. *)
Lemma lower_char_capital (i : nat) :
  (i < 26)%nat ->
  Str.lower_char (ascii_of_nat (65 + i)) = ascii_of_nat (97 + i) /\
  Str.lower_char (ascii_of_nat (97 + i)) = ascii_of_nat (97 + i).
Proof.
  intros Hi.
  do 26 (destruct i as [|i]; [split; reflexivity|]).
  lia.
Qed.

Lemma same_letter_lower (a b : ascii) :
  same_letter a b <-> Str.lower_char a = Str.lower_char b.
Proof.
  split.
  - intros [c|i Hi|i Hi]; [reflexivity| |];
      destruct (lower_char_capital i Hi) as [H1 H2]; congruence.
  - unfold Str.lower_char. cbv zeta.
    pose proof (ascii_nat_embedding a) as Ha.
    pose proof (ascii_nat_embedding b) as Hb.
    destruct (Nat.leb 65 (nat_of_ascii a) && Nat.leb (nat_of_ascii a) 90)%bool eqn:Ua;
      destruct (Nat.leb 65 (nat_of_ascii b) && Nat.leb (nat_of_ascii b) 90)%bool eqn:Ub;
      intros H.
    + apply andb_true_iff in Ua as [Ua1 Ua2]. apply andb_true_iff in Ub as [Ub1 Ub2].
      apply Nat.leb_le in Ua1, Ua2, Ub1, Ub2.
      apply (f_equal nat_of_ascii) in H.
      rewrite !nat_ascii_embedding in H by lia.
      assert (Hn : nat_of_ascii a = nat_of_ascii b) by lia.
      rewrite <- Ha, <- Hb, Hn. constructor.
    + apply andb_true_iff in Ua as [Ua1 Ua2]. apply Nat.leb_le in Ua1, Ua2.
      rewrite <- Ha, <- H.
      replace (nat_of_ascii a) with (65 + (nat_of_ascii a - 65))%nat at 1 by lia.
      replace (nat_of_ascii a + 32)%nat with (97 + (nat_of_ascii a - 65))%nat by lia.
      apply same_letter_capital_small. lia.
    + apply andb_true_iff in Ub as [Ub1 Ub2]. apply Nat.leb_le in Ub1, Ub2.
      rewrite <- Hb, H.
      replace (nat_of_ascii b) with (65 + (nat_of_ascii b - 65))%nat at 2 by lia.
      replace (nat_of_ascii b + 32)%nat with (97 + (nat_of_ascii b - 65))%nat by lia.
      apply same_letter_small_capital. lia.
    + rewrite H. constructor.
Qed.

Lemma same_ignoring_case_lower s t :
  same_ignoring_case s t <-> Str.lower s = Str.lower t.
Proof.
  split.
  - induction 1 as [|a b s t Hc _ IH]; simpl; [reflexivity|].
    apply same_letter_lower in Hc. congruence.
  - revert t. induction s as [|a s IH]; intros [|b t] H; simpl in H; try discriminate.
    + constructor.
    + injection H as Hc H. constructor; [apply same_letter_lower, Hc | auto].
Qed.

Lemma supported_extensions_lower ext :
  In ext supported_extensions -> Str.lower ext = ext.
Proof.
  unfold supported_extensions. simpl.
  intros [<-|[<-|[<-|[]]]]; reflexivity.
Qed.

(** The test of the code is the test of the specification. *)
Lemma supported_iff name : supported name = true <-> has_image_extension name.
Proof.
  unfold supported, Str.endswith_any. rewrite existsb_exists. split.
  - intros (ext & Hin & Hend).
    apply StrFacts.endswith_elim in Hend as [stem' Hl].
    apply StrFacts.lower_split in Hl as (stem & tail & -> & _ & Htail).
    exists ext, stem, tail. repeat split; [exact Hin|].
    apply same_ignoring_case_lower.
    rewrite Htail. symmetry. apply supported_extensions_lower, Hin.
  - intros (ext & stem & tail & Hin & -> & Hsame).
    exists ext. split; [exact Hin|].
    apply same_ignoring_case_lower in Hsame.
    rewrite StrFacts.lower_app, Hsame, (supported_extensions_lower ext Hin).
    apply StrFacts.endswith_intro.
Qed.

Lemma filter_supported_selects names :
  selects has_image_extension names (filter (fun f => supported f = true) names).
Proof.
  induction names as [|f names IH]; [constructor|].
  rewrite filter_cons. destruct (decide (supported f = true)) as [Hf|Hf].
  - apply selects_keep; [apply supported_iff, Hf | exact IH].
  - apply selects_skip; [rewrite <- supported_iff; exact Hf | exact IH].
Qed.

(** ** Reading a journal *)

Lemma stitch_calls_app j1 j2 : stitch_calls (j1 ++ j2) = stitch_calls j1 ++ stitch_calls j2.
Proof. apply omap_app. Qed.

Lemma imread_calls_app j1 j2 : imread_calls (j1 ++ j2) = imread_calls j1 ++ imread_calls j2.
Proof. apply omap_app. Qed.

Lemma imwrite_calls_app j1 j2 :
  imwrite_calls (j1 ++ j2) = imwrite_calls j1 ++ imwrite_calls j2.
Proof. apply omap_app. Qed.

Lemma log_records_app j1 j2 : log_records (j1 ++ j2) = log_records j1 ++ log_records j2.
Proof. apply omap_app. Qed.

Lemma stitch_calls_imread fs : stitch_calls (Imread <$> fs) = [].
Proof. induction fs; [reflexivity | assumption]. Qed.

Lemma imwrite_calls_imread fs : imwrite_calls (Imread <$> fs) = [].
Proof. induction fs; [reflexivity | assumption]. Qed.

Lemma log_records_imread fs : log_records (Imread <$> fs) = [].
Proof. induction fs; [reflexivity | assumption]. Qed.

Lemma imread_calls_imread fs : imread_calls (Imread <$> fs) = fs.
Proof. induction fs as [|f fs IH]; [reflexivity | simpl; f_equal; exact IH]. Qed.

Create Rewrite HintDb journal.
#[global] Hint Rewrite stitch_calls_app imread_calls_app imwrite_calls_app log_records_app
  stitch_calls_imread imwrite_calls_imread log_records_imread imread_calls_imread
  @app_nil_r : journal.

(** Projects a journal that is an explicit concatenation. *)
Ltac read_journal :=
  cbn [disk journal fst snd];
  repeat (autorewrite with journal; cbn [stitch_calls imread_calls imwrite_calls
                                         log_records omap list_omap app]).

(** ** The equations of the runs

    Each function of the program is straight-line code around its calls to
    the outside; its run from a machine [m] is computed once and for all
    here, and the properties below are read off these equations. *)

Section Runs.
Context {FS : Type} (w : World FS).

Ltac step :=
  unfold mbind, mret, run_mbind, run_mret, run_bind, run_ret,
         emit, raise, read_disk, write_disk; simpl.

Lemma logging_error_run msg (m : machine FS) :
  logging_error msg m = (Returns tt, Machine (disk m) (journal m ++ [Log ERROR msg])).
Proof. reflexivity. Qed.

(** The list comprehension [[cv2.imread(f) for f in image_files]] reads
    every file, in order, whether or not an earlier one failed. *)
Lemma imread_all_run (image_files : list string) (m : machine FS) :
  mapM (cv2_imread w) image_files m =
  (Returns (imread w (disk m) <$> image_files),
   Machine (disk m) (journal m ++ (Imread <$> image_files))).
Proof.
  revert m. induction image_files as [|f fs IH]; intros [d j]; simpl.
  - step. rewrite app_nil_r. reflexivity.
  - step. rewrite IH. simpl. rewrite <- app_assoc. reflexivity.
Qed.

(** The four ways [create_panorama] ends. *)
Lemma create_panorama_run (image_files : list string) (m : machine FS) :
  let images := imread w (disk m) <$> image_files in
  let opening := Log INFO (stitching_message (length image_files))
                 :: (Imread <$> image_files) in
  create_panorama w image_files m =
  if existsb is_None images then
    (Returns None,
     Machine (disk m)
       (journal m ++ opening
        ++ [Log ERROR "One or more images could not be loaded."]))
  else
    match stitch w images with
    | None =>
        (Raises (Cv2Error "stitch"),
         Machine (disk m) (journal m ++ opening ++ [Stitch images]))
    | Some (status, panorama) =>
        if negb (status =? Stitcher_OK w) then
          (Returns None,
           Machine (disk m)
             (journal m ++ opening
              ++ [Stitch images; Log ERROR (stitch_error_message status)]))
        else
          (Returns panorama,
           Machine (disk m)
             (journal m ++ opening
              ++ [Stitch images; Log INFO "Panorama successfully created."]))
    end.
Proof.
  destruct m as [d j]. cbn zeta.
  unfold create_panorama, logging_info, logging_error, stitcher_stitch.
  unfold mbind, mret, run_mbind, run_mret, run_bind, run_ret, emit, raise.
  cbn [disk journal]. rewrite imread_all_run. cbn [disk journal].
  fold (stitching_message (length image_files)).
  destruct (existsb is_None (imread w d <$> image_files)).
  - cbn [disk journal]. rewrite <- !app_assoc. reflexivity.
  - destruct (stitch w (imread w d <$> image_files)) as [[status panorama]|].
    + cbn [fst snd disk journal].
      destruct (negb (status =? Stitcher_OK w));
        cbn [disk journal]; rewrite <- !app_assoc; reflexivity.
    + cbn [disk journal]. rewrite <- !app_assoc. reflexivity.
Qed.

(** The two ways [save_image] ends: the record "Panorama saved as ..." is
    logged whatever boolean [cv2.imwrite] returns, and not at all when it
    raises. *)
Lemma save_image_run (image : ndarray) (file_name : string) (m : machine FS) :
  save_image w image file_name m =
  match (imwrite w (disk m) file_name image).2 with
  | Some _ =>
      (Returns tt,
       Machine (imwrite w (disk m) file_name image).1
         (journal m ++ [Imwrite file_name image;
                        Log INFO ("Panorama saved as " +:+ file_name)]))
  | None =>
      (Raises (Cv2Error "imwrite"),
       Machine (imwrite w (disk m) file_name image).1
         (journal m ++ [Imwrite file_name image]))
  end.
Proof.
  destruct m as [d j]. unfold save_image, cv2_imwrite, logging_info. step.
  destruct ((imwrite w d file_name image).2); step; [|reflexivity].
  rewrite <- app_assoc. reflexivity.
Qed.

Lemma scan_images_run (directory : string) (m : machine FS) :
  scan_images w directory m =
  match listdir w (disk m) directory with
  | None => (Raises (OSError directory),
             Machine (disk m) (journal m ++ [Listdir directory]))
  | Some names =>
      (Returns (discovered directory names),
       Machine (disk m)
         (journal m ++ Listdir directory ::
            match discovered directory names with
            | [] => [Log WARNING "No image files found in the directory."]
            | _ => []
            end))
  end.
Proof.
  destruct m as [d j]. unfold scan_images, os_listdir. step.
  destruct (listdir w d directory) as [names|]; step; [|reflexivity].
  fold (discovered directory names).
  destruct (discovered directory names); step; [|reflexivity].
  rewrite <- app_assoc. reflexivity.
Qed.

(** [main] in terms of the runs of the functions it calls. *)
Lemma main_run (input_dir : string) (m : machine FS) :
  main w input_dir m =
  match listdir w (disk m) input_dir with
  | None => (Raises (OSError input_dir),
             Machine (disk m) (journal m ++ [Listdir input_dir]))
  | Some names =>
      match discovered input_dir names with
      | [] =>
          (Returns tt,
           Machine (disk m)
             (journal m ++
                [Listdir input_dir;
                 Log WARNING "No image files found in the directory.";
                 Log ERROR "No images found to process. Exiting program."]))
      | image_files =>
          match create_panorama w image_files
                  (Machine (disk m) (journal m ++ [Listdir input_dir])) with
          | (Returns (Some p), m1) => save_image w p "panorama_output.jpg" m1
          | (Returns None, m1) => logging_error "Failed to create a panorama." m1
          | (Raises e, m1) => (Raises e, m1)
          end
      end
  end.
Proof.
  unfold main. unfold mbind at 1, run_mbind, run_bind.
  rewrite scan_images_run.
  destruct (listdir w (disk m) input_dir) as [names|]; [|reflexivity].
  destruct (discovered input_dir names) as [|f fs] eqn:E.
  - unfold logging_error, emit. cbn [disk journal].
    rewrite <- app_assoc. reflexivity.
  - unfold mbind, run_mbind, run_bind.
    destruct (create_panorama w (f :: fs) _) as [[[p|]|e] m1]; reflexivity.
Qed.

(** *** Decodable and undecodable path lists *)

Lemma all_decodable_check d image_files :
  all_decodable w d image_files ->
  existsb is_None (imread w d <$> image_files) = false.
Proof.
  induction 1 as [|f fs [img Hf] _ IH]; [reflexivity|].
  simpl. rewrite Hf. exact IH.
Qed.

Lemma some_undecodable_check d image_files :
  some_undecodable w d image_files ->
  existsb is_None (imread w d <$> image_files) = true.
Proof.
  induction 1 as [f fs Hf|f fs _ IH]; simpl.
  - rewrite Hf. reflexivity.
  - change (list_fmap _ _ ?g fs) with (g <$> fs). rewrite IH. apply orb_true_r.
Qed.

(** The decoded images of an all-decodable list, in the order of the
    paths. *)
Lemma all_decodable_images d image_files :
  all_decodable w d image_files ->
  exists imgs : list ndarray,
    Forall2 (fun f img => imread w d f = Some img) image_files imgs /\
    imread w d <$> image_files = Some <$> imgs.
Proof.
  induction 1 as [|f fs [img Hf] _ (imgs & H2 & Heq)].
  - exists []. split; [constructor | reflexivity].
  - exists (img :: imgs). split; [constructor; assumption|].
    simpl. rewrite Hf. f_equal. exact Heq.
Qed.

(** The run of [create_panorama] when a path fails to decode. *)
Lemma run_of_load_failure image_files (m : machine FS) :
  some_undecodable w (disk m) image_files ->
  create_panorama w image_files m =
  (Returns None,
   Machine (disk m)
     (journal m ++ Log INFO (stitching_message (length image_files))
        :: (Imread <$> image_files)
        ++ [Log ERROR "One or more images could not be loaded."])).
Proof.
  intros H. rewrite create_panorama_run. cbn zeta.
  rewrite (some_undecodable_check _ _ H). reflexivity.
Qed.

(** The run of [create_panorama] when the engine reports a failure. *)
Lemma run_of_stitch_failure image_files (m : machine FS) (status : Z) :
  all_decodable w (disk m) image_files ->
  engine_reports w (disk m) image_files status ->
  status <> Stitcher_OK w ->
  create_panorama w image_files m =
  (Returns None,
   Machine (disk m)
     (journal m ++ Log INFO (stitching_message (length image_files))
        :: (Imread <$> image_files)
        ++ [Stitch (imread w (disk m) <$> image_files);
            Log ERROR (stitch_error_message status)])).
Proof.
  intros Hd [pano Hans] Hne. rewrite create_panorama_run. cbn zeta.
  rewrite (all_decodable_check _ _ Hd).
  unfold engine_answer in Hans. rewrite Hans.
  apply Z.eqb_neq in Hne. rewrite Hne. reflexivity.
Qed.

(** The run of [create_panorama] when the engine reports OK. *)
Lemma run_of_stitch_ok image_files (m : machine FS) (panorama : option ndarray) :
  all_decodable w (disk m) image_files ->
  engine_answer w (disk m) image_files = Some (Stitcher_OK w, panorama) ->
  create_panorama w image_files m =
  (Returns panorama,
   Machine (disk m)
     (journal m ++ Log INFO (stitching_message (length image_files))
        :: (Imread <$> image_files)
        ++ [Stitch (imread w (disk m) <$> image_files);
            Log INFO "Panorama successfully created."])).
Proof.
  intros Hd Hans. rewrite create_panorama_run. cbn zeta.
  rewrite (all_decodable_check _ _ Hd).
  unfold engine_answer in Hans. rewrite Hans, Z.eqb_refl. reflexivity.
Qed.

(** The run of [create_panorama] when the engine raises. *)
Lemma run_of_stitch_raise image_files (m : machine FS) :
  all_decodable w (disk m) image_files ->
  engine_answer w (disk m) image_files = None ->
  create_panorama w image_files m =
  (Raises (Cv2Error "stitch"),
   Machine (disk m)
     (journal m ++ Log INFO (stitching_message (length image_files))
        :: (Imread <$> image_files)
        ++ [Stitch (imread w (disk m) <$> image_files)])).
Proof.
  intros Hd Hans. rewrite create_panorama_run. cbn zeta.
  rewrite (all_decodable_check _ _ Hd).
  unfold engine_answer in Hans. rewrite Hans. reflexivity.
Qed.

(** Both failure causes give [None] and leave the file system alone. *)
Lemma run_of_failure image_files (m : machine FS) :
  load_or_stitch_failure w (disk m) image_files ->
  exists added,
    create_panorama w image_files m =
    (Returns None, Machine (disk m) (journal m ++ added)) /\
    imwrite_calls added = [] /\
    exists msg, last (log_records added) = Some (ERROR, msg).
Proof.
  intros [Hl|[Hd Hf]].
  - rewrite (run_of_load_failure _ _ Hl).
    eexists. split; [reflexivity|]. split.
    + read_journal. reflexivity.
    + eexists. read_journal. reflexivity.
  - destruct Hf as (status & Hrep & Hne).
    rewrite (run_of_stitch_failure _ _ status Hd Hrep Hne).
    eexists. split; [reflexivity|]. split.
    + read_journal. reflexivity.
    + eexists. read_journal. reflexivity.
Qed.

End Runs.

(** ** Discovery *)

Lemma scan_images_returns {FS} (w : World FS) directory (m : machine FS) image_files :
  (scan_images w directory m).1 = Returns image_files <->
  exists names,
    listdir w (disk m) directory = Some names /\
    image_files = discovered directory names.
Proof.
  rewrite scan_images_run.
  destruct (listdir w (disk m) directory) as [names|]; simpl; split.
  - intros [= <-]. exists names. auto.
  - intros (names' & [= <-] & ->). reflexivity.
  - discriminate.
  - intros (names' & [=] & _).
Qed.

(** The scenario of the specification: [a.jpg, b.PNG, c.txt] in [photos]. *)
Example scan_images_scenario :
  (scan_images Demo.ok_world "photos" (Machine Demo.photos [])).1
  = Returns ["photos/a.jpg"; "photos/b.PNG"].
Proof. reflexivity. Qed.

Lemma selects_unique (P : string -> Prop) names kept kept' :
  selects P names kept -> selects P names kept' -> kept' = kept.
Proof.
  intros H. revert kept'.
  induction H as [|f names kept Hf _ IH|f names kept Hf _ IH]; intros kept' H'.
  - inversion H'. reflexivity.
  - inversion H' as [|? ? k Hf' Hk|? ? k Hf' Hk]; subst.
    + f_equal. apply IH, Hk.
    + contradiction.
  - inversion H' as [|? ? k Hf' Hk|? ? k Hf' Hk]; subst.
    + contradiction.
    + apply IH, Hk.
Qed.

(** In the listing [a.jpg, b.PNG, c.txt] the specification's test keeps
    the first two names: [.PNG] is [.png] up to the case of its letters. *)
Lemma demo_listing_selects :
  selects has_image_extension Demo.listing ["a.jpg"; "b.PNG"].
Proof.
  apply selects_keep; [|apply selects_keep; [|apply selects_skip; [|constructor]]].
  - exists ".jpg", "a", ".jpg". split; [simpl; auto|]. split; [reflexivity|].
    repeat constructor.
  - exists ".png", "b", ".PNG". split; [simpl; auto|]. split; [reflexivity|].
    constructor; [constructor|].
    constructor; [exact (same_letter_capital_small 15 ltac:(lia))|].
    constructor; [exact (same_letter_capital_small 13 ltac:(lia))|].
    constructor; [exact (same_letter_capital_small 6 ltac:(lia))|].
    constructor.
  - intros H. apply supported_iff in H. discriminate.
Defined.

(** C6. For every directory listing, [scan_images] returns exactly the
    entries whose names end in [.jpg], [.jpeg] or [.png] compared
    case-insensitively, each as its path under the directory and in the
    order of the listing; the other entries are left out, and the call
    returns normally and leaves the file system as it was.  The entries
    kept are determined by the listing and the extension test alone. *)
Theorem scan_images_discovers {FS} (w : World FS) (directory : string)
    (names : list string) (m : machine FS) :
  listdir w (disk m) directory = Some names ->
  exists kept,
    selects has_image_extension names kept /\
    (forall kept', selects has_image_extension names kept' -> kept' = kept) /\
    (scan_images w directory m).1 = Returns (os_path_join directory <$> kept) /\
    disk (scan_images w directory m).2 = disk m.
Proof.
  intros Hls. exists (filter (fun f => supported f = true) names).
  split; [apply filter_supported_selects|].
  split; [intros kept'; apply selects_unique, filter_supported_selects|].
  rewrite scan_images_run, Hls. split; reflexivity.
Qed.

Lemma scan_images_discovers_witness :
  listdir Demo.ok_world (disk Demo.start) "photos" = Some Demo.listing /\
  selects has_image_extension Demo.listing ["a.jpg"; "b.PNG"] /\
  (scan_images Demo.ok_world "photos" Demo.start).1
  = Returns ["photos/a.jpg"; "photos/b.PNG"].
Proof.
  split; [reflexivity|]. split; [exact demo_listing_selects|].
  destruct (scan_images_discovers Demo.ok_world "photos" Demo.listing Demo.start)
    as (kept & _ & Hunique & Hresult & _); [reflexivity|].
  rewrite <- (Hunique _ demo_listing_selects) in Hresult.
  exact Hresult.
Defined.

(** ** The stitch attempt *)

(** C7. For every non-empty, all-decodable input path list,
    [create_panorama] invokes the stitching engine exactly once, on the
    decoded images of all the paths, in the order of the path list. *)
Theorem create_panorama_stitches_once {FS} (w : World FS)
    (image_files : list string) (m : machine FS) :
  image_files <> [] ->
  all_decodable w (disk m) image_files ->
  exists imgs : list ndarray,
    Forall2 (fun f img => imread w (disk m) f = Some img) image_files imgs /\
    stitch_calls (journal (create_panorama w image_files m).2)
    = stitch_calls (journal m) ++ [Some <$> imgs].
Proof.
  intros _ Hd.
  destruct (all_decodable_images w _ _ Hd) as (imgs & H2 & Heq).
  exists imgs. split; [exact H2|].
  rewrite create_panorama_run. cbn zeta.
  rewrite (all_decodable_check w _ _ Hd), Heq.
  destruct (stitch w _) as [[status panorama]|]; [destruct (negb _)|];
    read_journal; reflexivity.
Qed.

Lemma demo_paths_decodable : all_decodable Demo.ok_world Demo.photos Demo.paths.
Proof. repeat constructor; eexists; reflexivity. Defined.

Lemma create_panorama_stitches_once_witness :
  Demo.paths <> [] /\
  all_decodable Demo.ok_world (disk Demo.start) Demo.paths /\
  exists imgs : list ndarray,
    Forall2 (fun f img => imread Demo.ok_world (disk Demo.start) f = Some img)
      Demo.paths imgs /\
    stitch_calls (journal (create_panorama Demo.ok_world Demo.paths Demo.start).2)
    = stitch_calls (journal Demo.start) ++ [Some <$> imgs].
Proof.
  split; [discriminate|]. split; [exact demo_paths_decodable|].
  apply (create_panorama_stitches_once Demo.ok_world Demo.paths Demo.start).
  - discriminate.
  - exact demo_paths_decodable.
Defined.

(** C10. The result of [create_panorama] collapses every failure cause
    into [None]: whenever loading fails or the engine reports a
    non-success status the returned value is [None], so the returned values
    of any two failing calls are equal, whatever failed in each. *)
Theorem create_panorama_failure_is_None {FS1 FS2}
    (w1 : World FS1) (image_files1 : list string) (m1 : machine FS1)
    (w2 : World FS2) (image_files2 : list string) (m2 : machine FS2) :
  load_or_stitch_failure w1 (disk m1) image_files1 ->
  load_or_stitch_failure w2 (disk m2) image_files2 ->
  (create_panorama w1 image_files1 m1).1 = Returns None /\
  (create_panorama w2 image_files2 m2).1 = (create_panorama w1 image_files1 m1).1.
Proof.
  intros H1 H2.
  destruct (run_of_failure w1 _ _ H1) as (a1 & -> & _).
  destruct (run_of_failure w2 _ _ H2) as (a2 & -> & _).
  split; reflexivity.
Qed.

Lemma demo_engine_fails : engine_fails Demo.need_more_world Demo.photos Demo.paths.
Proof. exists 1. split; [eexists; reflexivity | discriminate]. Defined.

Lemma demo_stitch_failure :
  load_or_stitch_failure Demo.need_more_world Demo.photos Demo.paths.
Proof.
  right. split; [exact demo_paths_decodable|].
  exists 1. split; [eexists; reflexivity | discriminate].
Defined.

Lemma demo_load_failure :
  load_or_stitch_failure Demo.ok_world Demo.photos Demo.broken_paths.
Proof. left. apply Exists_cons_tl, Exists_cons_hd. reflexivity. Defined.

Lemma create_panorama_failure_is_None_witness :
  load_or_stitch_failure Demo.need_more_world (disk Demo.start) Demo.paths /\
  load_or_stitch_failure Demo.ok_world (disk Demo.start) Demo.broken_paths /\
  (create_panorama Demo.need_more_world Demo.paths Demo.start).1 = Returns None /\
  (create_panorama Demo.ok_world Demo.broken_paths Demo.start).1
  = (create_panorama Demo.need_more_world Demo.paths Demo.start).1.
Proof.
  split; [exact demo_stitch_failure|]. split; [exact demo_load_failure|].
  apply (create_panorama_failure_is_None
           Demo.need_more_world Demo.paths Demo.start
           Demo.ok_world Demo.broken_paths Demo.start).
  - exact demo_stitch_failure.
  - exact demo_load_failure.
Defined.

(** ** The whole run *)

(** C5. For every run whose discovery yields an empty image list, [main]
    ends at once with the input error (the ERROR record "No images found to
    process. Exiting program." is the last thing the run does), and it
    never calls the decoder nor the engine. *)
Theorem main_empty_discovery {FS} (w : World FS) (input_dir : string) (m : machine FS) :
  (scan_images w input_dir m).1 = Returns [] ->
  main w input_dir m =
  (Returns tt,
   Machine (disk m)
     (journal m ++
        [Listdir input_dir;
         Log WARNING "No image files found in the directory.";
         Log ERROR "No images found to process. Exiting program."])) /\
  imread_calls (journal (main w input_dir m).2) = imread_calls (journal m) /\
  stitch_calls (journal (main w input_dir m).2) = stitch_calls (journal m).
Proof.
  intros Hscan. apply scan_images_returns in Hscan as (names & Hls & Hnone).
  rewrite main_run, Hls, <- Hnone.
  repeat split; read_journal; reflexivity.
Qed.

Lemma main_empty_discovery_witness :
  (scan_images Demo.notes_world "photos" Demo.start).1 = Returns [] /\
  main Demo.notes_world "photos" Demo.start =
  (Returns tt,
   Machine (disk Demo.start)
     (journal Demo.start ++
        [Listdir "photos";
         Log WARNING "No image files found in the directory.";
         Log ERROR "No images found to process. Exiting program."])) /\
  imread_calls (journal (main Demo.notes_world "photos" Demo.start).2)
  = imread_calls (journal Demo.start) /\
  stitch_calls (journal (main Demo.notes_world "photos" Demo.start).2)
  = stitch_calls (journal Demo.start).
Proof.
  split; [reflexivity|].
  apply (main_empty_discovery Demo.notes_world "photos" Demo.start).
  reflexivity.
Defined.

(** [main] when [create_panorama] has nothing to give: nothing is written. *)
Lemma main_failure_run {FS} (w : World FS) input_dir (m : machine FS) image_files :
  (scan_images w input_dir m).1 = Returns image_files ->
  image_files = [] \/ load_or_stitch_failure w (disk m) image_files ->
  exists added,
    main w input_dir m = (Returns tt, Machine (disk m) (journal m ++ added)) /\
    imwrite_calls added = [] /\
    exists msg, last (log_records added) = Some (ERROR, msg).
Proof.
  intros Hscan Hfail. apply scan_images_returns in Hscan as (names & Hls & ->).
  rewrite main_run, Hls.
  destruct (discovered input_dir names) as [|f fs] eqn:E.
  - eexists. split; [reflexivity|]. split; [reflexivity|]. eexists. reflexivity.
  - destruct Hfail as [|Hfail]; [discriminate|].
    destruct (run_of_failure w (f :: fs)
                (Machine (disk m) (journal m ++ [Listdir input_dir])) Hfail)
      as (added & -> & Hwr & msg & Hlast).
    rewrite logging_error_run. cbn [disk journal].
    exists (Listdir input_dir :: added ++ [Log ERROR "Failed to create a panorama."]).
    split; [|split].
    + rewrite <- !app_assoc. reflexivity.
    + change (imwrite_calls (Listdir input_dir :: ?l)) with (imwrite_calls l).
      rewrite imwrite_calls_app, Hwr. reflexivity.
    + eexists.
      change (log_records (Listdir input_dir :: ?l)) with (log_records l).
      rewrite log_records_app. apply last_snoc.
Qed.

(** C4. For every run in which the stitching engine reports a failure
    code, [save_image] is never invoked: the run makes no [cv2.imwrite]
    call and ends on the file system it started from, so no output file is
    created or overwritten. *)
Theorem main_stitch_failure_writes_nothing {FS} (w : World FS)
    (input_dir : string) (m : machine FS) (image_files : list string) :
  (scan_images w input_dir m).1 = Returns image_files ->
  image_files <> [] ->
  all_decodable w (disk m) image_files ->
  engine_fails w (disk m) image_files ->
  imwrite_calls (journal (main w input_dir m).2) = imwrite_calls (journal m) /\
  disk (main w input_dir m).2 = disk m.
Proof.
  intros Hscan _ Hd Hf.
  destruct (main_failure_run w input_dir m image_files Hscan) as (added & -> & Hwr & _).
  { right. right. split; assumption. }
  cbn [snd disk journal]. rewrite imwrite_calls_app, Hwr, app_nil_r. split; reflexivity.
Qed.

Lemma main_stitch_failure_writes_nothing_witness :
  (scan_images Demo.need_more_world "photos" Demo.start).1 = Returns Demo.paths /\
  Demo.paths <> [] /\
  all_decodable Demo.need_more_world (disk Demo.start) Demo.paths /\
  engine_fails Demo.need_more_world (disk Demo.start) Demo.paths /\
  imwrite_calls (journal (main Demo.need_more_world "photos" Demo.start).2)
  = imwrite_calls (journal Demo.start) /\
  disk (main Demo.need_more_world "photos" Demo.start).2 = disk Demo.start.
Proof.
  split; [reflexivity|]. split; [discriminate|].
  split; [exact demo_paths_decodable|]. split; [exact demo_engine_fails|].
  apply (main_stitch_failure_writes_nothing
           Demo.need_more_world "photos" Demo.start Demo.paths).
  - reflexivity.
  - discriminate.
  - exact demo_paths_decodable.
  - exact demo_engine_fails.
Defined.

(** ** What a failure tells the caller *)

Lemma stitch_error_message_inj status status' :
  stitch_error_message status' = stitch_error_message status -> status' = status.
Proof.
  unfold stitch_error_message. intros H.
  apply (inj (String.app _)) in H. apply (inj pretty) in H. exact H.
Qed.

(** C1, as stated, fails: on the same decodable images, an engine that
    reports status 1 and an engine that reports status 2 make
    [create_panorama] return the same value, [None]; the returned value
    carries no status code. *)
Lemma create_panorama_returns_no_status_code :
  all_decodable Demo.need_more_world (disk Demo.start) Demo.paths /\
  engine_reports Demo.need_more_world (disk Demo.start) Demo.paths 1 /\
  engine_reports Demo.homography_world (disk Demo.start) Demo.paths 2 /\
  (create_panorama Demo.need_more_world Demo.paths Demo.start).1 = Returns None /\
  (create_panorama Demo.homography_world Demo.paths Demo.start).1 = Returns None /\
  ~ exists carried : outcome (option ndarray) -> Z,
      carried (create_panorama Demo.need_more_world Demo.paths Demo.start).1 = 1 /\
      carried (create_panorama Demo.homography_world Demo.paths Demo.start).1 = 2.
Proof.
  split; [exact demo_paths_decodable|].
  split; [eexists; reflexivity|]. split; [eexists; reflexivity|].
  do 2 (split; [reflexivity|]).
  intros (carried & H1 & H2).
  change (carried (Returns None) = 1) in H1.
  change (carried (Returns None) = 2) in H2.
  congruence.
Qed.

(** C1, amended. For every non-empty, all-decodable image set on which the
    engine returns a non-success status, [create_panorama] returns [None];
    the engine's status code reaches the log only, in the ERROR record
    "Failed to stitch images, error code: <status>", which is the last
    record of the call and determines the code. *)
Theorem create_panorama_stitch_failure {FS} (w : World FS)
    (image_files : list string) (m : machine FS) (status : Z) :
  image_files <> [] ->
  all_decodable w (disk m) image_files ->
  engine_reports w (disk m) image_files status ->
  status <> Stitcher_OK w ->
  (create_panorama w image_files m).1 = Returns None /\
  log_records (journal (create_panorama w image_files m).2)
  = log_records (journal m)
    ++ [(INFO, stitching_message (length image_files));
        (ERROR, stitch_error_message status)] /\
  forall status',
    stitch_error_message status' = stitch_error_message status ->
    status' = status.
Proof.
  intros _ Hd Hrep Hne. rewrite (run_of_stitch_failure w _ _ status Hd Hrep Hne).
  split; [reflexivity|]. split.
  - read_journal. reflexivity.
  - intros status'. apply stitch_error_message_inj.
Qed.

Lemma create_panorama_stitch_failure_witness :
  Demo.paths <> [] /\
  all_decodable Demo.need_more_world (disk Demo.start) Demo.paths /\
  engine_reports Demo.need_more_world (disk Demo.start) Demo.paths 1 /\
  1 <> Stitcher_OK Demo.need_more_world /\
  (create_panorama Demo.need_more_world Demo.paths Demo.start).1 = Returns None /\
  log_records (journal (create_panorama Demo.need_more_world Demo.paths Demo.start).2)
  = log_records (journal Demo.start)
    ++ [(INFO, stitching_message (length Demo.paths));
        (ERROR, stitch_error_message 1)] /\
  forall status',
    stitch_error_message status' = stitch_error_message 1 ->
    status' = 1.
Proof.
  split; [discriminate|]. split; [exact demo_paths_decodable|].
  split; [eexists; reflexivity|]. split; [discriminate|].
  apply (create_panorama_stitch_failure Demo.need_more_world Demo.paths Demo.start 1).
  - discriminate.
  - exact demo_paths_decodable.
  - eexists. reflexivity.
  - discriminate.
Defined.

(** The records of the specification's second scenario. *)
Example stitch_failure_log :
  log_records (journal (create_panorama Demo.need_more_world Demo.paths Demo.start).2)
  = [(INFO, "Stitching 2 images into a panorama.");
     (ERROR, "Failed to stitch images, error code: 1")].
Proof. reflexivity. Qed.

(** C2, as stated, fails: the load error does not reference the failing
    path.  On a file system without [a.jpg] and without [b.jpg], loading
    [[a.jpg]] and loading [[b.jpg]] return the same value and log the same
    two records, neither of which names a path. *)
Lemma load_failure_names_no_path :
  some_undecodable Demo.ok_world ∅ ["a.jpg"] /\
  some_undecodable Demo.ok_world ∅ ["b.jpg"] /\
  (create_panorama Demo.ok_world ["a.jpg"] (Machine ∅ [])).1 = Returns None /\
  (create_panorama Demo.ok_world ["b.jpg"] (Machine ∅ [])).1 = Returns None /\
  log_records (journal (create_panorama Demo.ok_world ["a.jpg"] (Machine ∅ [])).2)
  = [(INFO, "Stitching 1 images into a panorama.");
     (ERROR, "One or more images could not be loaded.")] /\
  log_records (journal (create_panorama Demo.ok_world ["b.jpg"] (Machine ∅ [])).2)
  = [(INFO, "Stitching 1 images into a panorama.");
     (ERROR, "One or more images could not be loaded.")] /\
  forallb (fun r => negb (Str.contains r.2 "a.jpg"))
    (log_records (journal (create_panorama Demo.ok_world ["a.jpg"] (Machine ∅ [])).2))
  = true /\
  ~ exists referenced : outcome (option ndarray) * list (level * string) -> string,
      referenced (reported (create_panorama Demo.ok_world ["a.jpg"] (Machine ∅ [])))
      = "a.jpg" /\
      referenced (reported (create_panorama Demo.ok_world ["b.jpg"] (Machine ∅ [])))
      = "b.jpg".
Proof.
  split; [apply Exists_cons_hd; reflexivity|].
  split; [apply Exists_cons_hd; reflexivity|].
  do 5 (split; [reflexivity|]).
  intros (referenced & Ha & Hb).
  change (reported (create_panorama Demo.ok_world ["b.jpg"] (Machine ∅ [])))
    with (reported (create_panorama Demo.ok_world ["a.jpg"] (Machine ∅ []))) in Hb.
  rewrite Ha in Hb. discriminate.
Qed.

(** C2, amended. For every input path list in which at least one path
    fails to decode, the load step fails as a whole: [create_panorama]
    returns [None], the engine is never invoked, so no subset of the images
    is used, and the file system is left as it was.  The failure is
    reported by the fixed ERROR record "One or more images could not be
    loaded.", which does not say which path failed. *)
Theorem create_panorama_load_failure {FS} (w : World FS)
    (image_files : list string) (m : machine FS) :
  some_undecodable w (disk m) image_files ->
  (create_panorama w image_files m).1 = Returns None /\
  stitch_calls (journal (create_panorama w image_files m).2) = stitch_calls (journal m) /\
  disk (create_panorama w image_files m).2 = disk m /\
  log_records (journal (create_panorama w image_files m).2)
  = log_records (journal m)
    ++ [(INFO, stitching_message (length image_files));
        (ERROR, "One or more images could not be loaded.")].
Proof.
  intros Hl. rewrite (run_of_load_failure w _ _ Hl).
  repeat split; read_journal; reflexivity.
Qed.

Lemma create_panorama_load_failure_witness :
  some_undecodable Demo.ok_world (disk Demo.start) Demo.broken_paths /\
  (create_panorama Demo.ok_world Demo.broken_paths Demo.start).1 = Returns None /\
  stitch_calls (journal (create_panorama Demo.ok_world Demo.broken_paths Demo.start).2)
  = stitch_calls (journal Demo.start) /\
  disk (create_panorama Demo.ok_world Demo.broken_paths Demo.start).2 = disk Demo.start /\
  log_records (journal (create_panorama Demo.ok_world Demo.broken_paths Demo.start).2)
  = log_records (journal Demo.start)
    ++ [(INFO, stitching_message (length Demo.broken_paths));
        (ERROR, "One or more images could not be loaded.")].
Proof.
  split; [apply Exists_cons_tl, Exists_cons_hd; reflexivity|].
  apply (create_panorama_load_failure Demo.ok_world Demo.broken_paths Demo.start).
  apply Exists_cons_tl, Exists_cons_hd. reflexivity.
Defined.

(** ** The exit status *)





(** ** Writing the result *)

(** C8. Where the destination cannot be created and [cv2.imwrite] answers
    [False], [save_image] does not report a write error: it drops the
    answer, logs "Panorama saved as <file>" as for a saved file and returns
    normally, so its caller is told of a success. *)
Theorem save_image_reports_failed_write_as_saved {FS} (w : World FS)
    (image : ndarray) (file_name : string) (m : machine FS) (left : FS) :
  imwrite w (disk m) file_name image = (left, Some false) ->
  save_image w image file_name m
  = (Returns tt,
     Machine left
       (journal m ++ [Imwrite file_name image;
                      Log INFO ("Panorama saved as " +:+ file_name)])).
Proof.
  intros Hwrite. rewrite save_image_run, Hwrite. reflexivity.
Qed.

Lemma save_image_reports_failed_write_as_saved_witness :
  imwrite Demo.read_only_world (disk Demo.start) "panorama_output.jpg" Demo.panorama
  = (Demo.photos, Some false) /\
  Demo.photos !! "panorama_output.jpg" = None /\
  save_image Demo.read_only_world Demo.panorama "panorama_output.jpg" Demo.start
  = (Returns tt,
     Machine Demo.photos
       (journal Demo.start
        ++ [Imwrite "panorama_output.jpg" Demo.panorama;
            Log INFO ("Panorama saved as " +:+ "panorama_output.jpg")])).
Proof.
  split; [reflexivity|]. split; [reflexivity|].
  apply (save_image_reports_failed_write_as_saved Demo.read_only_world
           Demo.panorama "panorama_output.jpg" Demo.start Demo.photos).
  reflexivity.
Defined.

(** * Further properties of the program

    What the four functions do beyond the statements above: which calls
    they make in every run, how a run can end, and what discovery returns. *)

(** ** [create_panorama] in every case *)

Lemma check_all_decodable {FS} (w : World FS) d image_files :
  existsb is_None (imread w d <$> image_files) = false ->
  all_decodable w d image_files.
Proof.
  induction image_files as [|f fs IH]; intros H; [constructor|].
  change (is_None (imread w d f) || existsb is_None (imread w d <$> fs) = false) in H.
  apply orb_false_iff in H as [Hf Hfs].
  constructor; [|exact (IH Hfs)].
  destruct (imread w d f) as [img|]; [eexists; reflexivity | discriminate].
Qed.


(** X2. [create_panorama] never writes: in every case it makes no
    [cv2.imwrite] call and leaves the file system as it found it. *)
Theorem create_panorama_never_writes {FS} (w : World FS)
    (image_files : list string) (m : machine FS) :
  imwrite_calls (journal (create_panorama w image_files m).2) = imwrite_calls (journal m) /\
  disk (create_panorama w image_files m).2 = disk m.
Proof.
  rewrite create_panorama_run. cbn zeta.
  destruct (existsb _ _);
    [|destruct (stitch w _) as [[status panorama]|]; [destruct (negb _)|]];
    split; read_journal; reflexivity.
Qed.


(** X4. The engine is never handed an undecoded entry: [create_panorama]
    invokes it at most once, and the list it passes then holds one decoded
    image for each path and no [None]. *)
Theorem create_panorama_stitches_decoded_only {FS} (w : World FS)
    (image_files : list string) (m : machine FS) :
  exists calls,
    stitch_calls (journal (create_panorama w image_files m).2)
    = stitch_calls (journal m) ++ calls /\
    (length calls <= 1)%nat /\
    Forall (fun images => Forall is_Some images /\
                          length images = length image_files) calls.
Proof.
  rewrite create_panorama_run. cbn zeta.
  destruct (existsb _ _) eqn:Hany.
  - exists []. split; [read_journal; reflexivity|]. split; [simpl; lia | constructor].
  - exists [imread w (disk m) <$> image_files].
    split; [destruct (stitch w _) as [[status panorama]|]; [destruct (negb _)|];
            read_journal; reflexivity|].
    split; [simpl; lia|].
    constructor; [|constructor]. split.
    + apply Forall_fmap. exact (check_all_decodable w _ _ Hany).
    + apply length_fmap.
Qed.

(** X5. [create_panorama] has no guard of its own against an empty list:
    on [[]] nothing is decoded and the engine is still invoked, once, with
    an empty list of images; what the call gives is up to the engine: its
    raster if it answers [Stitcher_OK], [None] if it answers another
    status, its exception if it raises. *)
Theorem create_panorama_empty_list {FS} (w : World FS) (m : machine FS) :
  stitch_calls (journal (create_panorama w [] m).2) = stitch_calls (journal m) ++ [[]] /\
  imread_calls (journal (create_panorama w [] m).2) = imread_calls (journal m) /\
  (create_panorama w [] m).1
  = match stitch w [] with
    | Some (status, panorama) =>
        Returns (if status =? Stitcher_OK w then panorama else None)
    | None => Raises (Cv2Error "stitch")
    end.
Proof.
  rewrite create_panorama_run. cbn zeta. cbn [fmap list_fmap existsb].
  destruct (stitch w []) as [[status panorama]|];
    [destruct (status =? Stitcher_OK w); cbn [negb]|];
    repeat split; read_journal; reflexivity.
Qed.

(** ** [save_image] in every case *)

(** X14. [save_image] makes exactly one [cv2.imwrite] call, for the file
    name and image it was given, and never a second one; the file system
    it leaves is the one that call left.  When the call answers, whatever
    the boolean, [save_image] logs "Panorama saved as <file>" and returns;
    when the call raises, [save_image] logs nothing and the exception
    reaches its caller. *)
Theorem save_image_one_attempt {FS} (w : World FS) (image : ndarray)
    (file_name : string) (m : machine FS) :
  imwrite_calls (journal (save_image w image file_name m).2)
  = imwrite_calls (journal m) ++ [(file_name, image)] /\
  disk (save_image w image file_name m).2 = (imwrite w (disk m) file_name image).1 /\
  match (imwrite w (disk m) file_name image).2 with
  | Some _ =>
      (save_image w image file_name m).1 = Returns tt /\
      log_records (journal (save_image w image file_name m).2)
      = log_records (journal m) ++ [(INFO, "Panorama saved as " +:+ file_name)]
  | None =>
      (save_image w image file_name m).1 = Raises (Cv2Error "imwrite") /\
      log_records (journal (save_image w image file_name m).2) = log_records (journal m)
  end.
Proof.
  rewrite save_image_run.
  destruct ((imwrite w (disk m) file_name image).2);
    repeat split; read_journal; reflexivity.
Qed.

(** A file name for which [cv2] has no writer: the call raises, nothing is
    logged, and the caller gets the exception. *)
Example save_image_no_writer :
  save_image Demo.ok_world Demo.panorama "out.xyz" Demo.start
  = (Raises (Cv2Error "imwrite"),
     Machine Demo.photos [Imwrite "out.xyz" Demo.panorama]).
Proof. reflexivity. Qed.

(** ** Discovery *)

Lemma string_app_assoc (s t u : string) : (s +:+ t) +:+ u = s +:+ (t +:+ u).
Proof.
  induction s as [|c s IH]; [reflexivity|].
  change (String c ((s +:+ t) +:+ u) = String c (s +:+ (t +:+ u))).
  f_equal. exact IH.
Qed.

(** The joined path is the entry behind a prefix; for an entry that is not
    absolute the prefix depends on the directory only. *)
Lemma os_path_join_entry (a b : string) :
  exists prefix, os_path_join a b = prefix +:+ b.
Proof.
  unfold os_path_join.
  destruct (Str.startswith b "/"); [exists ""; reflexivity|].
  destruct (_ || _)%bool; [exists a; reflexivity|].
  exists (a +:+ "/"). symmetry. apply string_app_assoc.
Qed.

Lemma os_path_join_relative (a b : string) :
  Str.startswith b "/" = false ->
  os_path_join a b
  = (if (String.eqb a "" || Str.endswith a "/")%bool then a else a +:+ "/") +:+ b.
Proof.
  intros Hb. unfold os_path_join. rewrite Hb.
  destruct (_ || _)%bool; [reflexivity|]. symmetry. apply string_app_assoc.
Qed.

Lemma has_image_extension_behind (prefix name : string) :
  has_image_extension name -> has_image_extension (prefix +:+ name).
Proof.
  intros (ext & stem & tail & Hin & -> & Hsame).
  exists ext, (prefix +:+ stem), tail.
  split; [exact Hin|]. split; [|exact Hsame].
  symmetry. apply string_app_assoc.
Qed.

(** X6. The extension test does not tell a capital letter from its small
    form: two names that are equal character by character, up to a capital
    [A]-[Z] standing where the other has the small letter, are both kept or
    both left out. *)
Theorem supported_case_insensitive (f g : string) :
  same_ignoring_case f g -> supported f = supported g.
Proof.
  intros H. apply same_ignoring_case_lower in H.
  unfold supported. rewrite H. reflexivity.
Qed.

Lemma supported_case_insensitive_witness :
  same_ignoring_case "IMG_1.JpEg" "img_1.jpeg" /\
  supported "IMG_1.JpEg" = supported "img_1.jpeg".
Proof.
  assert (H : same_ignoring_case "IMG_1.JpEg" "img_1.jpeg")
    by (apply same_ignoring_case_lower; reflexivity).
  split; [exact H|].
  exact (supported_case_insensitive "IMG_1.JpEg" "img_1.jpeg" H).
Defined.

(** X7. Every path [scan_images] returns itself ends in one of the three
    extensions, compared case-insensitively: joining the directory in
    front of an entry does not disturb its extension. *)
Theorem scan_images_paths_supported {FS} (w : World FS) (directory : string)
    (m : machine FS) (image_files : list string) :
  (scan_images w directory m).1 = Returns image_files ->
  Forall has_image_extension image_files.
Proof.
  intros H. apply scan_images_returns in H as (names & _ & ->).
  unfold discovered. apply Forall_fmap, Forall_forall. intros f Hf.
  apply list_elem_of_filter in Hf as [Hf _].
  destruct (os_path_join_entry directory f) as [prefix Hjoin].
  cbn [compose]. rewrite Hjoin.
  apply has_image_extension_behind, supported_iff, Hf.
Qed.

Lemma scan_images_paths_supported_witness :
  (scan_images Demo.ok_world "photos" Demo.start).1 = Returns Demo.paths /\
  Forall has_image_extension Demo.paths.
Proof.
  split; [reflexivity|].
  apply (scan_images_paths_supported Demo.ok_world "photos" Demo.start Demo.paths).
  reflexivity.
Defined.

(** X8. Distinct entries give distinct paths: when the listing has no
    repeated name and no name starts with [/], as the names of a directory
    listing are, [scan_images] returns no path twice. *)
Theorem scan_images_distinct_paths {FS} (w : World FS) (directory : string)
    (names : list string) (m : machine FS) (image_files : list string) :
  listdir w (disk m) directory = Some names ->
  NoDup names ->
  Forall (fun f => Str.startswith f "/" = false) names ->
  (scan_images w directory m).1 = Returns image_files ->
  NoDup image_files.
Proof.
  intros Hls Hnd Hrel Hscan.
  apply scan_images_returns in Hscan as (names' & Hls' & ->).
  assert (names' = names) as -> by congruence.
  unfold discovered. apply NoDup_fmap_2_strong; [|apply NoDup_filter, Hnd].
  intros x y Hx Hy Heq.
  apply list_elem_of_filter in Hx as [_ Hx]. apply list_elem_of_filter in Hy as [_ Hy].
  rewrite Forall_forall in Hrel.
  rewrite (os_path_join_relative directory x (Hrel x Hx)) in Heq.
  rewrite (os_path_join_relative directory y (Hrel y Hy)) in Heq.
  exact (inj (String.app _) _ _ Heq).
Qed.

Lemma scan_images_distinct_paths_witness :
  listdir Demo.ok_world (disk Demo.start) "photos" = Some Demo.listing /\
  NoDup Demo.listing /\
  Forall (fun f => Str.startswith f "/" = false) Demo.listing /\
  (scan_images Demo.ok_world "photos" Demo.start).1 = Returns Demo.paths /\
  NoDup Demo.paths.
Proof.
  assert (Hnd : NoDup Demo.listing).
  { repeat constructor; rewrite ?list_elem_of_In; simpl; intuition discriminate. }
  assert (Hrel : Forall (fun f => Str.startswith f "/" = false) Demo.listing)
    by (repeat constructor).
  split; [reflexivity|]. split; [exact Hnd|]. split; [exact Hrel|].
  split; [reflexivity|].
  apply (scan_images_distinct_paths Demo.ok_world "photos" Demo.listing
           Demo.start Demo.paths).
  - reflexivity.
  - exact Hnd.
  - exact Hrel.
  - reflexivity.
Defined.

(** X9. Discovery comes back empty exactly when no entry of the listing
    has an image extension, and [scan_images] logs its warning "No image
    files found in the directory." exactly then; otherwise it logs
    nothing. *)
Theorem scan_images_empty_iff {FS} (w : World FS) (directory : string)
    (names : list string) (m : machine FS) :
  listdir w (disk m) directory = Some names ->
  exists image_files,
    (scan_images w directory m).1 = Returns image_files /\
    (image_files = [] <-> Forall (fun f => ~ has_image_extension f) names) /\
    log_records (journal (scan_images w directory m).2)
    = log_records (journal m)
      ++ match image_files with
         | [] => [(WARNING, "No image files found in the directory.")]
         | _ => []
         end.
Proof.
  intros Hls. exists (discovered directory names).
  rewrite scan_images_run, Hls. split; [reflexivity|]. split.
  - unfold discovered. split.
    + intros H. apply fmap_nil_inv in H.
      apply Forall_forall. intros f Hf Hext.
      apply supported_iff in Hext.
      exact (filter_nil_not_elem_of _ _ f H Hext Hf).
    + intros H. rewrite Forall_forall in H.
      destruct (filter _ names) as [|f fs] eqn:E; [reflexivity|].
      assert (Hf : f ∈ filter (fun f => supported f = true) names)
        by (rewrite E; left).
      apply list_elem_of_filter in Hf as [Hsup Hin].
      destruct (H f Hin). apply supported_iff, Hsup.
  - destruct (discovered directory names); read_journal; reflexivity.
Qed.

Lemma scan_images_empty_iff_witness :
  listdir Demo.notes_world (disk Demo.start) "photos" = Some ["notes.txt"] /\
  exists image_files,
    (scan_images Demo.notes_world "photos" Demo.start).1 = Returns image_files /\
    (image_files = [] <-> Forall (fun f => ~ has_image_extension f) ["notes.txt"]) /\
    log_records (journal (scan_images Demo.notes_world "photos" Demo.start).2)
    = log_records (journal Demo.start)
      ++ match image_files with
         | [] => [(WARNING, "No image files found in the directory.")]
         | _ => []
         end.
Proof.
  split; [reflexivity|].
  apply (scan_images_empty_iff Demo.notes_world "photos" ["notes.txt"] Demo.start).
  reflexivity.
Defined.

(** ** The runs of [main] *)

(** X10. [main] does not catch what [os.listdir] raises: on a directory
    that cannot be listed the run ends with that exception right after the
    listing attempt; nothing is logged, decoded, stitched or written, and
    the process exits with status 1. *)
Theorem script_unlistable_directory {FS} (w : World FS) (input_dir : string) (d : FS) :
  listdir w d input_dir = None ->
  script w input_dir d = (Raises (OSError input_dir), Machine d [Listdir input_dir]) /\
  exit_status (script w input_dir d).1 = 1.
Proof.
  intros Hls. unfold script. rewrite main_run. cbn [disk journal].
  rewrite Hls. split; reflexivity.
Qed.

Lemma script_unlistable_directory_witness :
  listdir Demo.ok_world Demo.photos "nowhere" = None /\
  script Demo.ok_world "nowhere" Demo.photos
  = (Raises (OSError "nowhere"), Machine Demo.photos [Listdir "nowhere"]) /\
  exit_status (script Demo.ok_world "nowhere" Demo.photos).1 = 1.
Proof.
  split; [reflexivity|].
  apply (script_unlistable_directory Demo.ok_world "nowhere" Demo.photos).
  reflexivity.
Defined.





(** A run on which the engine raises ends with exit status 1. *)
Example raising_engine_exit_status :
  script Demo.raising_world "photos" Demo.photos
  = (Raises (Cv2Error "stitch"),
     Machine Demo.photos
       [Listdir "photos"; Log INFO "Stitching 2 images into a panorama.";
        Imread "photos/a.jpg"; Imread "photos/b.PNG";
        Stitch [Some (Demo.raster 1); Some (Demo.raster 2)]]) /\
  exit_status (script Demo.raising_world "photos" Demo.photos).1 = 1.
Proof. split; reflexivity. Qed.

(** X13. The order of a run that reaches the write: when discovery is not
    empty, every path decodes and the engine answers [Stitcher_OK] with a
    raster, the run of [main] is the listing, the decoding of every path in
    order, one engine call on all the decoded images, and one
    [cv2.imwrite] call with the engine's raster, each step complete before
    the next begins, with the INFO records in between.  When
    [cv2.imwrite] answers, the record "Panorama saved as
    panorama_output.jpg" follows and [main] returns; when it raises, the
    run ends there with its exception. *)
Theorem main_success_journal {FS} (w : World FS) (input_dir : string) (d : FS)
    (image_files : list string) (p : ndarray) :
  (scan_images w input_dir (Machine d [])).1 = Returns image_files ->
  image_files <> [] ->
  all_decodable w d image_files ->
  engine_answer w d image_files = Some (Stitcher_OK w, Some p) ->
  script w input_dir d =
  match (imwrite w d "panorama_output.jpg" p).2 with
  | Some _ =>
      (Returns tt,
       Machine (imwrite w d "panorama_output.jpg" p).1
         ([Listdir input_dir; Log INFO (stitching_message (length image_files))]
          ++ (Imread <$> image_files)
          ++ [Stitch (imread w d <$> image_files);
              Log INFO "Panorama successfully created.";
              Imwrite "panorama_output.jpg" p;
              Log INFO "Panorama saved as panorama_output.jpg"]))
  | None =>
      (Raises (Cv2Error "imwrite"),
       Machine (imwrite w d "panorama_output.jpg" p).1
         ([Listdir input_dir; Log INFO (stitching_message (length image_files))]
          ++ (Imread <$> image_files)
          ++ [Stitch (imread w d <$> image_files);
              Log INFO "Panorama successfully created.";
              Imwrite "panorama_output.jpg" p]))
  end.
Proof.
  intros Hscan Hne Hd Hans.
  apply scan_images_returns in Hscan as (names & Hls & ->).
  unfold script. rewrite main_run. cbn [disk journal] in Hls |- *. rewrite Hls.
  destruct (discovered input_dir names) as [|f fs]; [congruence|].
  rewrite (run_of_stitch_ok w (f :: fs)
             (Machine d ([] ++ [Listdir input_dir])) (Some p) Hd Hans).
  rewrite save_image_run. cbn [disk journal app].
  destruct ((imwrite w d "panorama_output.jpg" p).2);
    rewrite <- !app_assoc; reflexivity.
Qed.

Lemma main_success_journal_witness :
  (scan_images Demo.ok_world "photos" (Machine Demo.photos [])).1 = Returns Demo.paths /\
  Demo.paths <> [] /\
  all_decodable Demo.ok_world Demo.photos Demo.paths /\
  engine_answer Demo.ok_world Demo.photos Demo.paths
  = Some (Stitcher_OK Demo.ok_world, Some Demo.panorama) /\
  script Demo.ok_world "photos" Demo.photos =
  (Returns tt,
   Machine (imwrite Demo.ok_world Demo.photos "panorama_output.jpg" Demo.panorama).1
     ([Listdir "photos"; Log INFO (stitching_message (length Demo.paths))]
      ++ (Imread <$> Demo.paths)
      ++ [Stitch (imread Demo.ok_world Demo.photos <$> Demo.paths);
          Log INFO "Panorama successfully created.";
          Imwrite "panorama_output.jpg" Demo.panorama;
          Log INFO "Panorama saved as panorama_output.jpg"])).
Proof.
  split; [reflexivity|]. split; [discriminate|].
  split; [exact demo_paths_decodable|]. split; [reflexivity|].
  apply (main_success_journal Demo.ok_world "photos" Demo.photos
           Demo.paths Demo.panorama).
  - reflexivity.
  - discriminate.
  - exact demo_paths_decodable.
  - reflexivity.
Defined.
